(** * Semantic analysis for declarations: lib/Sema/TypeCheckDecl.cpp

    A shallow embedding of [DeclChecker] and of the three helpers it is made
    of ([visitValueDecl], [validateAttributes], [validateVarName]), followed
    by the properties of the declaration checker that the design document
    states about them.

    Conventions.
    - A C++ [bool] result keeps the source's polarity: [true] means that the
      routine found a problem (the source returns [true] on failure).
    - [TC.diagnose] is a side effect on the diagnostic sink.  A routine that
      may diagnose returns, next to its value, the list of diagnostics it
      reported, oldest first (a writer monad, [Diag]).  The list holds what
      [DeclChecker] reports; what the consumed services report on their own
      is theirs.
    - A pointer that may be null is an [option]; a node mutated in place is
      passed in and returned. *)

From Stdlib Require Import ZArith String Lia.
From stdpp Require Import base option list.

Set Warnings "-register-all".


(** ** The consumed AST: types, names, attributes *)

Definition Identifier := string.
Definition SMLoc := nat.

(** Modelled from the spec: [TupleTypeElt] is declared outside this file.
    One field of a tuple type: a name and a type. *)
Record TupleTypeElt_ (T : Type) : Type := mkTupleTypeElt {
  FieldName : Identifier;
  FieldTy : T
}.
Arguments mkTupleTypeElt {T} _ _.
Arguments FieldName {T} _.
Arguments FieldTy {T} _.

(** Modelled from the spec: [OneOfElementDecl] is declared outside this
    file.  One case of a oneof type, as far as the matcher reads it: its name
    and its [ArgumentType]. *)
Record OneOfElement_ (T : Type) : Type := mkOneOfElement {
  ElementName : Identifier;
  ArgumentType : T
}.
Arguments mkOneOfElement {T} _ _.
Arguments ElementName {T} _.
Arguments ArgumentType {T} _.

(** Modelled from the spec: the type classes ([DependentType], [TupleType],
    [FunctionType], [OneOfType], [ErrorType]) are declared in headers that
    are not part of this file.  The variants are those of the design
    document's type model: the unresolved placeholder, tuple of fields,
    function from input to output, sum type with named cases, and the error
    sentinel; [BuiltinType] stands for any other resolved type, which the
    checker never looks into.  A case's payload type is always there (the
    matcher dereferences it without a test). *)
Inductive TypeBase : Type :=
  | DependentType
  | ErrorType
  | BuiltinType (Name : Identifier)
  | TupleType (Fields : list (TupleTypeElt_ TypeBase))
  | FunctionType (Input Result : TypeBase)
  | OneOfType (Elements : list (OneOfElement_ TypeBase)).

Definition TupleTypeElt := TupleTypeElt_ TypeBase.
Definition OneOfElement := OneOfElement_ TypeBase.

(** [Ty->is<DependentType>()] *)
Definition is_DependentType (Ty : TypeBase) : bool :=
  match Ty with DependentType => true | _ => false end.

(** [dyn_cast<TupleType>] and [getAs<TupleType>]: the fields when the type is
    a tuple, null otherwise. *)
Definition getAs_TupleType (Ty : TypeBase) : option (list TupleTypeElt) :=
  match Ty with TupleType Fields => Some Fields | _ => None end.

(** [dyn_cast<FunctionType>]: input and result. *)
Definition getAs_FunctionType (Ty : TypeBase) : option (TypeBase * TypeBase) :=
  match Ty with FunctionType In Res => Some (In, Res) | _ => None end.

(** [getAs<OneOfType>] *)
Definition getAs_OneOfType (Ty : TypeBase) : option (list OneOfElement) :=
  match Ty with OneOfType Elements => Some Elements | _ => None end.

(** [OOT->hasSingleElement()] *)
Definition hasSingleElement (Elements : list OneOfElement) : bool :=
  Nat.eqb (length Elements) 1.

(** Modelled from the spec: class [DeclVarName] is declared outside this
    file.  A name specifier is a tree: a leaf is simple and carries the bound
    identifier, an interior node carries the ordered sequence of its
    children.  Both carry their source location. *)
Inductive DeclVarName : Type :=
  | SimpleName (Loc : SMLoc) (Name : Identifier)
  | NestedNames (Loc : SMLoc) (Elements : list DeclVarName).

Definition isSimple (Name : DeclVarName) : bool :=
  match Name with SimpleName _ _ => true | NestedNames _ _ => false end.

Definition getLocation (Name : DeclVarName) : SMLoc :=
  match Name with SimpleName l _ => l | NestedNames l _ => l end.

Definition getElements (Name : DeclVarName) : list DeclVarName :=
  match Name with SimpleName _ _ => [] | NestedNames _ Es => Es end.

(** Modelled from the spec: [InfixData] and [DeclAttributes] are declared
    outside this file.  Infix data is precedence and associativity metadata;
    a default-constructed [InfixData()] is the invalid one, and
    [Attrs.isInfix()] tells whether valid infix data is there.  The slot is
    an [option]: [None] is [InfixData()]. *)
Record InfixData : Type := mkInfixData {
  Precedence : nat
}.

Record DeclAttributes : Type := mkDeclAttributes {
  LSquareLoc : SMLoc;
  Infix : option InfixData
}.

Definition isInfix (Attrs : DeclAttributes) : bool :=
  match Infix Attrs with Some _ => true | None => false end.

Definition clearInfix (Attrs : DeclAttributes) : DeclAttributes :=
  {| LSquareLoc := LSquareLoc Attrs; Infix := None |}.

(** Modelled from the spec: class [Expr] is declared outside this file; the
    checker reads only the type slot of an initializer.  [ExprId] stands for
    the expression tree. *)
Record Expr : Type := mkExpr {
  ExprId : nat;
  ExprType : TypeBase
}.

(** ** Declarations *)

(** The dynamic class of a declaration, what [isa<...>] tests. *)
Inductive DeclKind : Type :=
  | ImportDeclKind
  | TypeAliasDeclKind
  | VarDeclKind
  | FuncDeclKind
  | OneOfElementDeclKind
  | ArgDeclKind
  | ElementRefDeclKind.

Definition isa_VarDecl (K : DeclKind) : bool :=
  match K with VarDeclKind => true | _ => false end.

Definition isa_FuncDecl (K : DeclKind) : bool :=
  match K with FuncDeclKind => true | _ => false end.

(** Modelled from the spec: the fields of [ValueDecl] that the checker reads
    and writes: the type ([getType], [overwriteType]), the initializer
    ([getInit], [setInit], null when absent), the attributes, whether the
    declared name is an operator, and where the declaration starts. *)
Record ValueDecl : Type := mkValueDecl {
  DeclName : Identifier;
  Ty : TypeBase;
  Init : option Expr;
  Attrs : DeclAttributes;
  isOperator : bool;
  LocStart : SMLoc
}.

Definition overwriteType (T : TypeBase) (VD : ValueDecl) : ValueDecl :=
  {| DeclName := DeclName VD; Ty := T; Init := Init VD; Attrs := Attrs VD;
     isOperator := isOperator VD; LocStart := LocStart VD |}.

Definition setInit (E : option Expr) (VD : ValueDecl) : ValueDecl :=
  {| DeclName := DeclName VD; Ty := Ty VD; Init := E; Attrs := Attrs VD;
     isOperator := isOperator VD; LocStart := LocStart VD |}.

Definition setAttrs (A : DeclAttributes) (VD : ValueDecl) : ValueDecl :=
  {| DeclName := DeclName VD; Ty := Ty VD; Init := Init VD; Attrs := A;
     isOperator := isOperator VD; LocStart := LocStart VD |}.

Record VarDecl : Type := mkVarDecl {
  VarValue : ValueDecl;
  NestedName : option DeclVarName
}.

Definition setNestedName (N : option DeclVarName) (VD : VarDecl) : VarDecl :=
  {| VarValue := VarValue VD; NestedName := N |}.

Record ElementRefDecl : Type := mkElementRefDecl {
  RefValue : ValueDecl;
  VD : VarDecl;
  AccessPath : list nat
}.

Inductive Decl : Type :=
  | ImportDecl (Path : list Identifier)
  | TypeAliasDecl (Name : Identifier) (AliasType : TypeBase)
  | Var (D : VarDecl)
  | FuncDecl (D : ValueDecl)
  | OneOfElementDecl (D : ValueDecl)
  | ArgDecl (D : ValueDecl)
  | ElementRef (D : ElementRefDecl).

(** ** Diagnostics *)

(** The diagnostics this file reports, each with the arguments the source
    passes to [TC.diagnose]. *)
Inductive DiagID : Type :=
  | invalid_index_in_element_ref (Name : Identifier) (OwnerTy : TypeBase)
  | while_converting_var_init
  | invalid_arg_count_for_operator
  | invalid_infix_left_input
  | infix_left_not_an_operator
  | infix_left_invalid_on_decls
  | binops_infix_left
  | name_matches_nontuple (T : TypeBase)
  | varname_element_count_mismatch (T : TypeBase) (NumFields NumElements : nat).

Definition Diagnostic : Type := SMLoc * DiagID.

(** A computation that may report diagnostics. *)
Definition Diag (A : Type) : Type := A * list Diagnostic.

Definition ret {A} (a : A) : Diag A := (a, []).

Definition bind {A B} (m : Diag A) (k : A -> Diag B) : Diag B :=
  let (a, ds) := m in
  let (b, ds') := k a in
  (b, ds ++ ds').

Definition diagnose (Loc : SMLoc) (D : DiagID) : Diag unit := (tt, [(Loc, D)]).

Notation "x <- m ;; k" := (bind m (fun x => k))
  (at level 100, m at next level, right associativity).
Notation "m ;;; k" := (bind m (fun _ => k))
  (at level 100, right associativity).

(** ** The consumed services *)

(** Modelled from the spec: class [TypeChecker] is declared in TypeChecker.h,
    which is not part of this file.  Both services return [true] on failure.
    - [validateType] on a type forces the resolution of that type;
    - [validateDecl] is [validateType] on a value declaration: it resolves
      the declared type and leaves the result in the declaration's type
      slot, given here as the second component;
    - [typeCheckExpression] takes the initializer by reference together with
      the expected type (null for none) and leaves the checked expression,
      carrying its resulting type, in place. *)
Record TypeChecker : Type := mkTypeChecker {
  validateType : TypeBase -> bool;
  validateDecl : ValueDecl -> bool * TypeBase;
  typeCheckExpression : Expr -> option TypeBase -> bool * Expr
}.

(** What a visit of one declaration comes to: the node as the visit leaves
    it with the diagnostics reported, or the abort of [llvm_unreachable]. *)
Inductive Outcome : Type :=
  | Checked (D : Decl) (Diags : list Diagnostic)
  | Unreachable (Msg : string).

(** ** DeclChecker *)

(** The look of [validateVarName] through a single-element oneof:
    [if (OOT = Ty->getAs<OneOfType>()) if (OOT->hasSingleElement())
       Ty = OOT->getElement(0)->ArgumentType]. *)
Definition throughSingleElementOneOf (Ty : TypeBase) : TypeBase :=
  match getAs_OneOfType Ty with
  | Some OOT =>
    if hasSingleElement OOT then
      match OOT with E0 :: _ => ArgumentType E0 | [] => Ty end
    else Ty
  | None => Ty
  end.

(** [DeclChecker::validateVarName].  The recursion is on the name specifier:
    the two cases of the match are [Name->isSimple()] and its negation, where
    [Loc] is [Name->getLocation()] and [Elements] is [Name->getElements()].
    The source loops over [i] from [0] to [Elements.size()], which at that
    point equals [Fields.size()], and takes [Fields[i]] with [Elements[i]];
    [validateElements] walks the two sequences together. *)
Fixpoint validateVarName (Ty : TypeBase) (Name : DeclVarName) {struct Name}
  : Diag bool :=
  match Name with
  | SimpleName _ _ => ret false
  | NestedNames Loc Elements =>
    if is_DependentType Ty then ret false else
    let Ty := throughSingleElementOneOf Ty in
    match getAs_TupleType Ty with
    | None =>
      diagnose Loc (name_matches_nontuple Ty) ;;; ret true
    | Some Fields =>
      if negb (Nat.eqb (length Elements) (length Fields)) then
        diagnose Loc
          (varname_element_count_mismatch Ty (length Fields) (length Elements)) ;;;
        ret true
      else
        (fix validateElements (Es : list DeclVarName) (Fs : list TupleTypeElt)
           {struct Es} : Diag bool :=
           match Es, Fs with
           | E :: Es', F :: Fs' =>
             mismatch <- validateVarName (FieldTy F) E ;;
             if mismatch then ret true else validateElements Es' Fs'
           | _, _ => ret false
           end) Elements Fields
    end
  end.

(** The loop of [validateVarName] on its own, for stating what it does. *)
Fixpoint validateElements (Es : list DeclVarName) (Fs : list TupleTypeElt)
  : Diag bool :=
  match Es, Fs with
  | E :: Es', F :: Fs' =>
    mismatch <- validateVarName (FieldTy F) E ;;
    if mismatch then ret true else validateElements Es' Fs'
  | _, _ => ret false
  end.

(** Shape compatibility of a name specifier with a type, after the design
    document's description of the pattern matcher: a simple name fits any
    type; against the unresolved placeholder the question is deferred;
    otherwise the type, looked at through a single-case sum type, has to be a
    tuple with as many fields as the specifier has children, and the
    children have to fit the field types position by position. *)
Inductive ShapeCompatible : TypeBase -> DeclVarName -> Prop :=
  | compatible_simple Ty Loc Name :
      ShapeCompatible Ty (SimpleName Loc Name)
  | compatible_deferred Loc Elements :
      ShapeCompatible DependentType (NestedNames Loc Elements)
  | compatible_tuple Ty Loc Elements Fields :
      is_DependentType Ty = false ->
      getAs_TupleType (throughSingleElementOneOf Ty) = Some Fields ->
      Forall2 (fun E F => ShapeCompatible (FieldTy F) E) Elements Fields ->
      ShapeCompatible Ty (NestedNames Loc Elements).

(** The number of lexical arguments, [NumArguments]: [-1] unless the type is
    a function type whose input is a tuple, and then the number of fields
    (an [int] in the source; a field count is far below its range). *)
Definition NumArguments (Ty : TypeBase) : Z :=
  match getAs_FunctionType Ty with
  | Some (Input, _) =>
    match getAs_TupleType Input with
    | Some Fields => Z.of_nat (length Fields)
    | None => (-1)%Z
    end
  | None => (-1)%Z
  end.

(** [DeclChecker::validateAttributes].  [K] is the dynamic class of [VD]. *)
Definition validateAttributes (K : DeclKind) (VD : ValueDecl) : Diag ValueDecl :=
  let NumArguments := NumArguments (Ty VD) in
  if isOperator VD && ((NumArguments =? 0)%Z || (2 <? NumArguments)%Z) then
    diagnose (LocStart VD) invalid_arg_count_for_operator ;;;
    ret (setAttrs (clearInfix (Attrs VD)) VD)
  else
    VD <- (if isInfix (Attrs VD) && negb (NumArguments =? 2)%Z then
             diagnose (LSquareLoc (Attrs VD)) invalid_infix_left_input ;;;
             ret (setAttrs (clearInfix (Attrs VD)) VD)
           else ret VD) ;;
    VD <- (if isInfix (Attrs VD) && negb (isOperator VD) then
             diagnose (LocStart VD) infix_left_not_an_operator ;;;
             ret (setAttrs (clearInfix (Attrs VD)) VD)
           else ret VD) ;;
    VD <- (if isInfix (Attrs VD) && negb (isa_VarDecl K) && negb (isa_FuncDecl K) then
             diagnose (LocStart VD) infix_left_invalid_on_decls ;;;
             ret (setAttrs (clearInfix (Attrs VD)) VD)
           else ret VD) ;;
    (if isOperator VD && negb (isInfix (Attrs VD)) && negb (NumArguments =? 1)%Z then
       diagnose (LocStart VD) binops_infix_left
     else ret tt) ;;;
    ret VD.

Section DeclChecker.

Variable TC : TypeChecker.

(** Modelled from the spec: [ElementRefDecl::getTypeForPath] is defined
    outside this file.  It walks an access path through a type and gives
    the type found there, or null when the path does not lead to a valid
    position. *)
Variable getTypeForPath : TypeBase -> list nat -> option TypeBase.

(** [DeclChecker::visitValueDecl].  [K] is the dynamic class of [VD]. *)
Definition visitValueDecl (K : DeclKind) (VD : ValueDecl)
  : Diag (bool * ValueDecl) :=
  let (failed, T) := validateDecl TC VD in
  let VD := overwriteType T VD in
  if failed then ret (true, setInit None VD) else
  match Init VD with
  | None =>
    if is_DependentType (Ty VD) then ret (true, VD) else
    VD <- validateAttributes K VD ;; ret (false, VD)
  | Some E =>
    let DestTy := if is_DependentType (Ty VD) then None else Some (Ty VD) in
    let (failed, E) := typeCheckExpression TC E DestTy in
    let VD := setInit (Some E) VD in
    VD <- (if negb failed then ret (overwriteType (ExprType E) VD)
           else if isa_VarDecl K then
             diagnose (LocStart VD) while_converting_var_init ;;; ret VD
           else ret VD) ;;
    VD <- validateAttributes K VD ;; ret (false, VD)
  end.

(** [visitVarDecl] *)
Definition visitVarDecl (D : VarDecl) : Diag VarDecl :=
  r <- visitValueDecl VarDeclKind (VarValue D) ;;
  let D := {| VarValue := r.2; NestedName := NestedName D |} in
  if r.1 then ret D else
  match NestedName D with
  | None => ret D
  | Some Name =>
    mismatch <- validateVarName (Ty (VarValue D)) Name ;;
    if mismatch then ret (setNestedName None D) else ret D
  end.

(** [visitFuncDecl] *)
Definition visitFuncDecl (FD : ValueDecl) : Diag ValueDecl :=
  r <- visitValueDecl FuncDeclKind FD ;; ret r.2.

(** [visitElementRefDecl] *)
Definition visitElementRefDecl (ERD : ElementRefDecl) : Diag ElementRefDecl :=
  if negb (is_DependentType (Ty (RefValue ERD))) then ret ERD else
  match getTypeForPath (Ty (VarValue (VD ERD))) (AccessPath ERD) with
  | Some T =>
    ret {| RefValue := overwriteType T (RefValue ERD);
           VD := VD ERD; AccessPath := AccessPath ERD |}
  | None =>
    diagnose (LocStart (RefValue ERD))
      (invalid_index_in_element_ref (DeclName (RefValue ERD))
         (Ty (VarValue (VD ERD)))) ;;;
    ret {| RefValue := overwriteType ErrorType (RefValue ERD);
           VD := VD ERD; AccessPath := AccessPath ERD |}
  end.

Definition completed {A} (inj : A -> Decl) (m : Diag A) : Outcome :=
  Checked (inj m.1) m.2.

(** [TypeChecker::typeCheckDecl]: a [DeclChecker] visits [D], which is the
    dispatch of [DeclVisitor] on the class of [D]. *)
Definition typeCheckDecl (D : Decl) : Outcome :=
  match D with
  | ImportDecl _ => Checked D []
  | TypeAliasDecl _ AliasType =>
    let _ := validateType TC AliasType in Checked D []
  | Var D => completed Var (visitVarDecl D)
  | FuncDecl D => completed FuncDecl (visitFuncDecl D)
  | OneOfElementDecl _ => Checked D []
  | ArgDecl _ => Unreachable "ArgDecls should never exist in a statement"%string
  | ElementRef D => completed ElementRef (visitElementRefDecl D)
  end.

End DeclChecker.

(** ** Sample nodes

    Small declarations, types and services on which the properties below are
    exercised. *)
Module Sample.

Definition Int : TypeBase := BuiltinType "Int"%string.

Definition field (Name : Identifier) (T : TypeBase) : TupleTypeElt :=
  mkTupleTypeElt Name T.

Definition x : TupleTypeElt := field "x"%string Int.
Definition y : TupleTypeElt := field "y"%string Int.

(** The tuple types [(x : Int)] and [(x : Int, y : Int)]. *)
Definition IntSingle : TypeBase := TupleType [x].
Definition IntPair : TypeBase := TupleType [x; y].

(** [struct Point { x : Int, y : Int }]: a oneof with a single element. *)
Definition Point : TypeBase :=
  OneOfType [mkOneOfElement "Point"%string IntPair].

Definition a : DeclVarName := SimpleName 1 "a"%string.
Definition b : DeclVarName := SimpleName 2 "b"%string.
Definition c : DeclVarName := SimpleName 3 "c"%string.

(** The name specifiers [(a, b)] and [((a, b), c)]. *)
Definition a_b : DeclVarName := NestedNames 10 [a; b].
Definition ab_c : DeclVarName := NestedNames 11 [a_b; c].

Definition infix100 : DeclAttributes :=
  {| LSquareLoc := 7; Infix := Some {| Precedence := 100 |} |}.
Definition noAttrs : DeclAttributes :=
  {| LSquareLoc := 0; Infix := None |}.

(** [func [infix=100] twice : Int -> Int], not an operator. *)
Definition twice : ValueDecl :=
  {| DeclName := "twice"%string; Ty := FunctionType Int Int; Init := None;
     Attrs := infix100; isOperator := false; LocStart := 3 |}.

(** [func [infix=100] + : (x : Int, y : Int) -> Int] *)
Definition plus : ValueDecl :=
  {| DeclName := "+"%string; Ty := FunctionType IntPair Int; Init := None;
     Attrs := infix100; isOperator := true; LocStart := 4 |}.

Definition literal : Expr := {| ExprId := 0; ExprType := DependentType |}.

(** [var v : Int = <literal>] with the name specifier [(a, b)]. *)
Definition v : ValueDecl :=
  {| DeclName := "v"%string; Ty := Int; Init := Some literal;
     Attrs := noAttrs; isOperator := false; LocStart := 5 |}.
Definition var_v : VarDecl := {| VarValue := v; NestedName := Some a_b |}.

(** Services: the declared type always resolves to itself, or never
    resolves; the initializer always converts to an [IntPair], or never
    converts. *)
Definition resolves (VD : ValueDecl) : bool * TypeBase := (false, Ty VD).
Definition fails_to_resolve (VD : ValueDecl) : bool * TypeBase := (true, ErrorType).
Definition converts (E : Expr) (DestTy : option TypeBase) : bool * Expr :=
  (false, {| ExprId := ExprId E; ExprType := IntPair |}).
Definition fails_to_convert (E : Expr) (DestTy : option TypeBase) : bool * Expr :=
  (true, E).

Definition TC_ok : TypeChecker :=
  {| validateType := fun _ => false; validateDecl := resolves;
     typeCheckExpression := converts |}.
Definition TC_unresolved : TypeChecker :=
  {| validateType := fun _ => true; validateDecl := fails_to_resolve;
     typeCheckExpression := converts |}.
Definition TC_unconverted : TypeChecker :=
  {| validateType := fun _ => false; validateDecl := resolves;
     typeCheckExpression := fails_to_convert |}.

(** A path walker for tuples: the empty path stays, an index selects a
    field of a tuple, anything else is invalid. *)
Fixpoint walk (T : TypeBase) (Path : list nat) : option TypeBase :=
  match Path with
  | [] => Some T
  | i :: Path' =>
    match getAs_TupleType T with
    | Some Fields =>
      match Fields !! i with
      | Some F => walk (FieldTy F) Path'
      | None => None
      end
    | None => None
    end
  end.

(** A reference to the second field of a variable of type [IntPair], not
    resolved yet. *)
Definition owner : VarDecl :=
  {| VarValue := {| DeclName := "p"%string; Ty := IntPair; Init := None;
                    Attrs := noAttrs; isOperator := false; LocStart := 8 |};
     NestedName := Some a_b |}.
Definition ref_y : ElementRefDecl :=
  {| RefValue := {| DeclName := "b"%string; Ty := DependentType; Init := None;
                    Attrs := noAttrs; isOperator := false; LocStart := 9 |};
     VD := owner; AccessPath := [1] |}.

End Sample.

(** ** More sample nodes *)
Module Sample2.

(** [(x : <unresolved>, y : <unresolved>)] *)
Definition UnresolvedPair : TypeBase :=
  TupleType [Sample.field "x"%string DependentType;
             Sample.field "y"%string DependentType].

(** [oneof Shape { Dot : (x : Int, y : Int), Segment : (x : Int, y : Int) }] *)
Definition Shape : list OneOfElement :=
  [mkOneOfElement "Dot"%string Sample.IntPair;
   mkOneOfElement "Segment"%string Sample.IntPair].

(** [var [infix=100] - : Int], an operator whose type is no function. *)
Definition minus : ValueDecl :=
  {| DeclName := "-"%string; Ty := Sample.Int; Init := None;
     Attrs := Sample.infix100; isOperator := true; LocStart := 6 |}.

(** [func ! : (x : Int) -> Int], a unary operator without attributes. *)
Definition bang : ValueDecl :=
  {| DeclName := "!"%string; Ty := FunctionType Sample.IntSingle Sample.Int;
     Init := None; Attrs := Sample.noAttrs; isOperator := true; LocStart := 12 |}.

(** [var u], with neither a type nor an initializer. *)
Definition u : ValueDecl :=
  {| DeclName := "u"%string; Ty := DependentType; Init := None;
     Attrs := Sample.noAttrs; isOperator := false; LocStart := 14 |}.

(** [var (a, b) : (x : Int) = <literal>]: one field for two names. *)
Definition w : VarDecl :=
  {| VarValue := {| DeclName := "w"%string; Ty := Sample.IntSingle;
                    Init := Some Sample.literal; Attrs := Sample.noAttrs;
                    isOperator := false; LocStart := 15 |};
     NestedName := Some Sample.a_b |}.

(** A reference into the third field of a variable of type [IntPair]. *)
Definition ref_z : ElementRefDecl :=
  {| RefValue := {| DeclName := "c"%string; Ty := DependentType; Init := None;
                    Attrs := Sample.noAttrs; isOperator := false;
                    LocStart := 16 |};
     VD := Sample.owner; AccessPath := [2] |}.

End Sample2.

(** ** Vocabulary for the properties *)


(** The two diagnostics of [validateVarName], with what their arguments are
    at the two places that report them: [name_matches_nontuple] names a type
    that is no tuple, [varname_element_count_mismatch] names a tuple type,
    its number of fields and a different number of elements. *)
Definition matcherDiagnostic (D : DiagID) : Prop :=
  match D with
  | name_matches_nontuple T => getAs_TupleType T = None
  | varname_element_count_mismatch T NumFields NumElements =>
    (exists Fields, T = TupleType Fields /\ NumFields = length Fields) /\
    NumElements <> NumFields
  | _ => False
  end.

(** Two name specifiers of the same shape: they differ at most in their
    simple names, that is, in the identifiers bound and in where these are
    written. *)
Inductive SameShape : DeclVarName -> DeclVarName -> Prop :=
  | same_simple Loc Name Loc' Name' :
      SameShape (SimpleName Loc Name) (SimpleName Loc' Name')
  | same_nested Loc Elements Elements' :
      Forall2 SameShape Elements Elements' ->
      SameShape (NestedNames Loc Elements) (NestedNames Loc Elements').

(** The diagnostics of [validateAttributes] that come with the clearing of
    the infix data of a declaration that is kept (rules 2 to 4). *)
Definition infixDiagnostic (D : DiagID) : bool :=
  match D with
  | invalid_infix_left_input
  | infix_left_not_an_operator
  | infix_left_invalid_on_decls => true
  | _ => false
  end.

(** The diagnostics of [validateAttributes]. *)
Definition attributeDiagnostic (D : DiagID) : bool :=
  match D with
  | invalid_arg_count_for_operator
  | binops_infix_left => true
  | _ => infixDiagnostic D
  end.

(** Case analysis on everything [validateAttributes] tests. *)
Ltac attribute_cases K VD :=
  unfold validateAttributes;
  destruct VD as [name T init [lsquare [infix |]] [] loc];
  destruct K; simpl;
  try (generalize (NumArguments T); intros n; simpl);
  repeat match goal with
    | |- context [Z.eqb ?a ?b] => destruct (Z.eqb_spec a b); simpl
    | |- context [Z.ltb ?a ?b] => destruct (Z.ltb_spec a b); simpl
    end.

(** * Properties *)

(** ** The pattern matcher *)

(** Induction on a name specifier, with the hypothesis for every child of an
    interior node. *)
Lemma DeclVarName_nested_ind (P : DeclVarName -> Prop) :
  (forall Loc Name, P (SimpleName Loc Name)) ->
  (forall Loc Elements, Forall P Elements -> P (NestedNames Loc Elements)) ->
  forall Name, P Name.
Proof.
  intros Hsimple Hnested.
  fix IH 1. intros [Loc Name | Loc Elements].
  - apply Hsimple.
  - apply Hnested. induction Elements as [| E Es IHEs].
    + constructor.
    + constructor; [apply IH | apply IHEs].
Qed.

(** The inner loop of [validateVarName] is [validateElements]. *)
Lemma validateVarName_nested Ty Loc Elements :
  validateVarName Ty (NestedNames Loc Elements) =
  if is_DependentType Ty then ret false else
  match getAs_TupleType (throughSingleElementOneOf Ty) with
  | None =>
    (true, [(Loc, name_matches_nontuple (throughSingleElementOneOf Ty))])
  | Some Fields =>
    if negb (Nat.eqb (length Elements) (length Fields)) then
      (true, [(Loc, varname_element_count_mismatch (throughSingleElementOneOf Ty)
                      (length Fields) (length Elements))])
    else validateElements Elements Fields
  end.
Proof. reflexivity. Qed.

Lemma validateElements_cons E Es F Fs :
  validateElements (E :: Es) (F :: Fs) =
  if (validateVarName (FieldTy F) E).1
  then (true, (validateVarName (FieldTy F) E).2)
  else ((validateElements Es Fs).1,
        (validateVarName (FieldTy F) E).2 ++ (validateElements Es Fs).2).
Proof.
  simpl. destruct (validateVarName (FieldTy F) E) as [[] ds]; simpl.
  - by rewrite app_nil_r.
  - by destruct (validateElements Es Fs).
Qed.

(** A name specifier that is accepted is accepted silently, and a rejected
    one comes with exactly one diagnostic: the first problem found. *)
Lemma validateVarName_diagnostics Name :
  forall Ty,
    if (validateVarName Ty Name).1
    then exists d, (validateVarName Ty Name).2 = [d]
    else (validateVarName Ty Name).2 = [].
Proof.
  induction Name as [Loc Name | Loc Elements IH] using DeclVarName_nested_ind;
    intros Ty.
  - reflexivity.
  - rewrite validateVarName_nested.
    destruct (is_DependentType Ty); [reflexivity |].
    destruct (getAs_TupleType _) as [Fields |]; [| simpl; eauto].
    destruct (negb _); [simpl; eauto |].
    clear Ty. revert Fields.
    induction IH as [| E Es HE _ IHEs]; intros [| F Fs]; try reflexivity.
    rewrite validateElements_cons.
    specialize (HE (FieldTy F)). specialize (IHEs Fs).
    destruct (validateVarName (FieldTy F) E) as [[] ds]; simpl in *; [done |].
    rewrite HE. simpl. done.
Qed.

Lemma validateVarName_accepts_silently Ty Name :
  (validateVarName Ty Name).1 = false -> validateVarName Ty Name = (false, []).
Proof.
  intros H. pose proof (validateVarName_diagnostics Name Ty) as Hd.
  rewrite H in Hd. destruct (validateVarName Ty Name); simpl in *. congruence.
Qed.

(** What the loop computes: it accepts when every pair is accepted, and
    otherwise its result is that of the first rejected pair. *)
Lemma validateElements_all_accepted Es Fs :
  (forall (i : nat) E F, Es !! i = Some E -> Fs !! i = Some F ->
     (validateVarName (FieldTy F) E).1 = false) ->
  validateElements Es Fs = (false, []).
Proof.
  revert Fs. induction Es as [| E Es IH]; intros [| F Fs] Hall; try reflexivity.
  rewrite validateElements_cons.
  rewrite (validateVarName_accepts_silently (FieldTy F) E)
    by (apply (Hall 0); reflexivity).
  simpl. rewrite IH; [reflexivity |].
  intros i E' F' HE HF. by apply (Hall (S i)).
Qed.

Lemma validateElements_first_rejected Es Fs (k : nat) E F :
  Es !! k = Some E -> Fs !! k = Some F ->
  (validateVarName (FieldTy F) E).1 = true ->
  (forall (j : nat) E' F', (j < k)%nat -> Es !! j = Some E' -> Fs !! j = Some F' ->
     (validateVarName (FieldTy F') E').1 = false) ->
  validateElements Es Fs = validateVarName (FieldTy F) E.
Proof.
  revert Es Fs. induction k as [| k IH]; intros [| E0 Es] [| F0 Fs] HE HF Hk Hbefore;
    try discriminate; rewrite validateElements_cons.
  - simpl in HE, HF. injection HE as ->. injection HF as ->.
    rewrite Hk. destruct (validateVarName (FieldTy F) E); simpl in *. congruence.
  - simpl in HE, HF.
    rewrite (validateVarName_accepts_silently (FieldTy F0) E0)
      by (apply (Hbefore 0); [lia | reflexivity | reflexivity]).
    simpl. rewrite <- (IH Es Fs HE HF Hk).
    + by destruct (validateElements Es Fs).
    + intros j E' F' Hj HE' HF'. apply (Hbefore (S j)); [lia | done | done].
Qed.

(** The matcher decides shape compatibility. *)
Lemma validateVarName_ShapeCompatible Name :
  forall Ty, (validateVarName Ty Name).1 = false <-> ShapeCompatible Ty Name.
Proof.
  induction Name as [Loc Name | Loc Elements IH] using DeclVarName_nested_ind;
    intros Ty.
  - split; [intros _; constructor | reflexivity].
  - rewrite validateVarName_nested. split.
    + destruct (is_DependentType Ty) eqn:HD.
      { destruct Ty; try discriminate. intros _. constructor. }
      destruct (getAs_TupleType _) as [Fields |] eqn:HT; [| discriminate].
      destruct (Nat.eqb _ _) eqn:Hlen; [| discriminate]. simpl.
      intros Hloop. apply (compatible_tuple _ _ _ Fields HD HT).
      apply Nat.eqb_eq in Hlen. clear HD HT. revert Fields Hlen Hloop.
      induction IH as [| E Es HE _ IHEs]; intros [| F Fs] Hlen Hloop;
        try discriminate; constructor.
      * apply HE. rewrite validateElements_cons in Hloop.
        by destruct (validateVarName (FieldTy F) E).1.
      * apply IHEs; [simpl in Hlen; lia |].
        rewrite validateElements_cons in Hloop.
        by destruct (validateVarName (FieldTy F) E).1.
    + intros HC. inversion HC as [| | ? ? ? Fields HD HT HF]; subst; [reflexivity |].
      rewrite HD, HT.
      assert (length Elements = length Fields) as -> by (by eapply Forall2_length).
      rewrite Nat.eqb_refl. simpl.
      clear HC HD HT. revert Fields HF.
      induction IH as [| E Es HE _ IHEs]; intros Fields HF;
        inversion HF as [| ? F ? Fs HEF HF']; subst; [reflexivity |].
      rewrite validateElements_cons.
      rewrite (proj2 (HE (FieldTy F)) HEF). simpl. by apply IHEs.
Qed.

(** C5.  A name specifier with children, matched against a tuple type: when
    the number of fields differs from the number of children, the matcher
    reports [varname_element_count_mismatch] with both counts and returns
    mismatch.  When the counts agree it goes through the children and the
    fields pairwise, in order: it accepts when every child is accepted, and
    as soon as a child is rejected it returns mismatch with what that child
    reported, the later children not being looked at. *)
Theorem validateVarName_tuple Loc (Elements : list DeclVarName)
    (Fields : list TupleTypeElt) :
  (length Elements <> length Fields ->
   validateVarName (TupleType Fields) (NestedNames Loc Elements) =
   (true, [(Loc, varname_element_count_mismatch (TupleType Fields)
                   (length Fields) (length Elements))]))
  /\
  (length Elements = length Fields ->
   ((forall (i : nat) E F, Elements !! i = Some E -> Fields !! i = Some F ->
       (validateVarName (FieldTy F) E).1 = false) ->
    validateVarName (TupleType Fields) (NestedNames Loc Elements) = (false, []))
   /\
   (forall (k : nat) E F,
      Elements !! k = Some E -> Fields !! k = Some F ->
      (validateVarName (FieldTy F) E).1 = true ->
      (forall (j : nat) E' F', (j < k)%nat ->
         Elements !! j = Some E' -> Fields !! j = Some F' ->
         (validateVarName (FieldTy F') E').1 = false) ->
      (validateVarName (TupleType Fields) (NestedNames Loc Elements)).1 = true /\
      validateVarName (TupleType Fields) (NestedNames Loc Elements) =
      validateVarName (FieldTy F) E)).
Proof.
  rewrite validateVarName_nested. simpl. split.
  - intros Hne. by rewrite (proj2 (Nat.eqb_neq _ _) Hne).
  - intros ->. rewrite Nat.eqb_refl. simpl. split.
    + apply validateElements_all_accepted.
    + intros k E F HE HF Hk Hbefore.
      rewrite (validateElements_first_rejected _ _ k E F HE HF Hk Hbefore).
      by split.
Qed.

Lemma validateVarName_tuple_witness :
  validateVarName (Sample.IntSingle) Sample.a_b =
    (true, [(10, varname_element_count_mismatch
                   (Sample.IntSingle) 1 2)]) /\
  validateVarName Sample.IntPair Sample.a_b = (false, []) /\
  validateVarName Sample.IntPair
    (NestedNames 12 [Sample.a_b; NestedNames 13 [Sample.c]]) =
    (true, [(10, name_matches_nontuple Sample.Int)]).
Proof.
  split; [| split].
  - apply (proj1 (validateVarName_tuple 10 [Sample.a; Sample.b]
                    [Sample.x])).
    simpl. lia.
  - apply (proj1 (proj2 (validateVarName_tuple 10 [Sample.a; Sample.b]
                           [Sample.x; Sample.y]) eq_refl)).
    intros [| [| i]] E F HE HF; simpl in HE, HF; try discriminate;
      injection HE as <-; injection HF as <-; reflexivity.
  - refine (proj2 (proj2 (proj2 (validateVarName_tuple 12
                      [Sample.a_b; NestedNames 13 [Sample.c]]
                      [Sample.x; Sample.y]) eq_refl)
                    0 Sample.a_b Sample.x
                    eq_refl eq_refl eq_refl _)).
    intros j E' F' Hj. lia.
Defined.

(** C6, as the code has it.  A name specifier with children, matched
    against a oneof type with a single element, is matched against the
    argument type of that element: it is rejected with [name_matches_nontuple],
    naming the argument type, when that is not a tuple, and otherwise the
    result is the one for the argument tuple itself.  A specifier of two
    simple names is accepted by a single-element oneof whose argument type is
    a tuple of two fields. *)
Theorem validateVarName_single_element_oneof Loc Elements Case Payload :
  validateVarName (OneOfType [mkOneOfElement Case Payload])
                  (NestedNames Loc Elements) =
  match getAs_TupleType Payload with
  | None => (true, [(Loc, name_matches_nontuple Payload)])
  | Some Fields => validateVarName (TupleType Fields) (NestedNames Loc Elements)
  end
  /\
  forall L1 N1 L2 N2 F1 F2,
    validateVarName (OneOfType [mkOneOfElement Case (TupleType [F1; F2])])
                    (NestedNames Loc [SimpleName L1 N1; SimpleName L2 N2]) =
    (false, []).
Proof.
  split.
  - rewrite validateVarName_nested. simpl.
    destruct Payload; try reflexivity.
  - reflexivity.
Qed.

(** C6, as stated, fails when a child has children of its own: [((a, b), c)]
    does not fit [struct Point { x : Int, y : Int }], although the specifier
    has two children and the argument type two fields. *)
Lemma validateVarName_single_element_oneof_counterexample :
  getElements Sample.ab_c = [Sample.a_b; Sample.c] /\
  Sample.Point =
    OneOfType [mkOneOfElement "Point"%string (TupleType [Sample.x; Sample.y])] /\
  validateVarName Sample.Point Sample.ab_c =
    (true, [(10, name_matches_nontuple Sample.Int)]).
Proof. repeat split. Qed.

(** ** The attribute validator *)

(** [NumArguments] is a field count or the sentinel [-1]. *)
Lemma NumArguments_range T : (-1 <= NumArguments T)%Z.
Proof.
  unfold NumArguments.
  destruct (getAs_FunctionType T) as [[In Res] |]; [| lia].
  destruct (getAs_TupleType In); lia.
Qed.

Lemma NumArguments_two T :
  NumArguments T = 2%Z <->
  exists F1 F2 Res, T = FunctionType (TupleType [F1; F2]) Res.
Proof.
  split.
  - destruct T as [| | | | In Res |]; try discriminate.
    destruct In as [| | | Fields | |]; try discriminate.
    unfold NumArguments; simpl. intros H.
    destruct Fields as [| F1 [| F2 [| F3 Fields]]]; simpl in H; try lia.
    by exists F1, F2, Res.
  - intros (F1 & F2 & Res & ->). reflexivity.
Qed.

(** The validator writes nothing but the infix slot. *)
Lemma validateAttributes_frame K VD :
  let VD' := (validateAttributes K VD).1 in
  DeclName VD' = DeclName VD /\ Ty VD' = Ty VD /\ Init VD' = Init VD /\
  isOperator VD' = isOperator VD /\ LocStart VD' = LocStart VD /\
  LSquareLoc (Attrs VD') = LSquareLoc (Attrs VD) /\
  (Infix (Attrs VD') = Infix (Attrs VD) \/ Infix (Attrs VD') = None).
Proof. attribute_cases K VD; repeat split; auto. Qed.

(** It never reports the conversion diagnostic of [visitValueDecl]. *)
Lemma validateAttributes_no_conversion_diagnostic K VD Loc :
  (Loc, while_converting_var_init) ∉ (validateAttributes K VD).2.
Proof.
  attribute_cases K VD;
    rewrite ?not_elem_of_cons; repeat split; try discriminate;
    apply not_elem_of_nil.
Qed.

(** C1, as the code has it.  Rule 1 (an operator with no argument or more
    than two) reports [invalid_arg_count_for_operator], clears the infix
    data and stops.  Otherwise rules 2 to 5 are gone through in order, each
    on the attributes as the rules before it left them.  Rules 2, 3 and 4
    clear the infix data that they all require, so only the first of them
    whose condition holds reports: rule 3 only when the argument count is 2,
    rule 4 only when moreover the declaration is an operator; rule 5 sees
    the infix data as cleared by them.  In particular a declaration with
    infix data, an argument count other than 2 and no operator name gets the
    diagnostic of rule 2 and nothing else. *)
Theorem validateAttributes_rules K VD :
  let n := NumArguments (Ty VD) in
  let infix := isInfix (Attrs VD) in
  let op := isOperator VD in
  let var_or_func := isa_VarDecl K || isa_FuncDecl K in
  let rule1 := op && ((n =? 0)%Z || (2 <? n)%Z) in
  let rule2 := infix && negb (n =? 2)%Z in
  let rule3 := infix && (n =? 2)%Z && negb op in
  let rule4 := infix && (n =? 2)%Z && op && negb var_or_func in
  let rule5 := op && negb (infix && (n =? 2)%Z && var_or_func) && negb (n =? 1)%Z in
  (rule1 = true ->
   validateAttributes K VD =
   (setAttrs (clearInfix (Attrs VD)) VD,
    [(LocStart VD, invalid_arg_count_for_operator)]))
  /\
  (rule1 = false ->
   (validateAttributes K VD).2 =
   (if rule2 then [(LSquareLoc (Attrs VD), invalid_infix_left_input)] else []) ++
   (if rule3 then [(LocStart VD, infix_left_not_an_operator)] else []) ++
   (if rule4 then [(LocStart VD, infix_left_invalid_on_decls)] else []) ++
   (if rule5 then [(LocStart VD, binops_infix_left)] else []))
  /\
  (infix = true -> n <> 2%Z -> op = false ->
   validateAttributes K VD =
   (setAttrs (clearInfix (Attrs VD)) VD,
    [(LSquareLoc (Attrs VD), invalid_infix_left_input)])).
Proof.
  attribute_cases K VD; repeat split; intros; try reflexivity;
    try discriminate; try lia; try contradiction.
Qed.

Lemma validateAttributes_rules_witness :
  validateAttributes FuncDeclKind
    (overwriteType (FunctionType (TupleType []) Sample.Int) Sample.plus) =
    (setAttrs {| LSquareLoc := 7; Infix := None |}
       (overwriteType (FunctionType (TupleType []) Sample.Int) Sample.plus),
     [(4, invalid_arg_count_for_operator)]) /\
  (validateAttributes FuncDeclKind
     (overwriteType (FunctionType Sample.IntSingle Sample.Int) Sample.plus)).2 =
    [(7, invalid_infix_left_input)] /\
  validateAttributes FuncDeclKind Sample.twice =
    (setAttrs {| LSquareLoc := 7; Infix := None |} Sample.twice,
     [(7, invalid_infix_left_input)]).
Proof.
  split; [| split].
  - exact (proj1 (validateAttributes_rules FuncDeclKind
             (overwriteType (FunctionType (TupleType []) Sample.Int) Sample.plus))
             eq_refl).
  - exact (proj1 (proj2 (validateAttributes_rules FuncDeclKind
             (overwriteType (FunctionType Sample.IntSingle Sample.Int) Sample.plus)))
             eq_refl).
  - apply (proj2 (proj2 (validateAttributes_rules FuncDeclKind Sample.twice)));
      [reflexivity | intros H; vm_compute in H; discriminate H | reflexivity].
Defined.

(** C1, as stated, fails: [twice] has infix data, an argument count other
    than 2 (its input is no tuple) and is not an operator, and only the
    diagnostic of rule 2 is reported for it, not the one of rule 3. *)
Lemma validateAttributes_rules_counterexample :
  isInfix (Attrs Sample.twice) = true /\
  NumArguments (Ty Sample.twice) <> 2%Z /\
  isOperator Sample.twice = false /\
  (validateAttributes FuncDeclKind Sample.twice).2 =
    [(LSquareLoc (Attrs Sample.twice), invalid_infix_left_input)] /\
  (LocStart Sample.twice, infix_left_not_an_operator)
    ∉ (validateAttributes FuncDeclKind Sample.twice).2.
Proof.
  repeat split; try discriminate.
  simpl. rewrite not_elem_of_cons. split; [discriminate | apply not_elem_of_nil].
Qed.

(** C2.  After [validateAttributes], infix data is there only on a [VarDecl]
    or a [FuncDecl] that is an operator and whose type is a function type
    with a tuple of exactly two fields as input, and then it is the data that
    was there before; if any of these conditions fails the infix slot is
    cleared. *)
Theorem validateAttributes_infix_invariant K VD :
  let VD' := (validateAttributes K VD).1 in
  (isInfix (Attrs VD') = true ->
   (K = VarDeclKind \/ K = FuncDeclKind) /\
   isOperator VD' = true /\
   NumArguments (Ty VD') = 2%Z /\
   (exists F1 F2 Res, Ty VD' = FunctionType (TupleType [F1; F2]) Res) /\
   Attrs VD' = Attrs VD)
  /\
  (~ ((K = VarDeclKind \/ K = FuncDeclKind) /\ isOperator VD = true /\
      NumArguments (Ty VD) = 2%Z) ->
   Infix (Attrs VD') = None).
Proof.
  intros VD'.
  assert (isInfix (Attrs VD') = true ->
          (K = VarDeclKind \/ K = FuncDeclKind) /\ isOperator VD = true /\
          NumArguments (Ty VD) = 2%Z /\ Attrs VD' = Attrs VD) as Hpresent.
  { subst VD'. attribute_cases K VD; intros; repeat split; auto;
      try discriminate; try lia. }
  destruct (validateAttributes_frame K VD) as (_ & HT & _ & Hop & _).
  fold VD' in HT, Hop. split.
  - intros H. destruct (Hpresent H) as (HK & HO & HN & HA).
    rewrite HT, Hop. repeat split; try done.
    by apply NumArguments_two.
  - intros Hviolated. destruct (Infix (Attrs VD')) eqn:HI; [| done].
    exfalso. apply Hviolated.
    destruct Hpresent as (HK & HO & HN & _); [| done].
    unfold isInfix. by rewrite HI.
Qed.

Lemma validateAttributes_infix_invariant_witness :
  isInfix (Attrs (validateAttributes FuncDeclKind Sample.plus).1) = true /\
  Attrs (validateAttributes FuncDeclKind Sample.plus).1 = Sample.infix100 /\
  Infix (Attrs (validateAttributes FuncDeclKind Sample.twice).1) = None.
Proof.
  split; [reflexivity | split].
  - apply (proj1 (validateAttributes_infix_invariant FuncDeclKind Sample.plus)).
    reflexivity.
  - apply (proj2 (validateAttributes_infix_invariant FuncDeclKind Sample.twice)).
    intros (_ & H & _). discriminate.
Defined.

(** ** Value declarations *)

(** C3.  When the type of a value declaration does not resolve,
    [visitValueDecl] clears the initializer and returns failure, with
    nothing else done: the node is the one [validateType] left, without its
    initializer, and nothing is reported.  [visitVarDecl] then returns at
    once: the name specifier and the attributes are as they were, whatever
    they are, and no diagnostic of the matcher or of the attribute validator
    is reported. *)
Theorem visitValueDecl_unresolved TC K (VD : ValueDecl) (N : option DeclVarName) :
  (validateDecl TC VD).1 = true ->
  let VD' := setInit None (overwriteType (validateDecl TC VD).2 VD) in
  visitValueDecl TC K VD = ((true, VD'), []) /\
  Init VD' = None /\
  Attrs VD' = Attrs VD /\
  visitVarDecl TC {| VarValue := VD; NestedName := N |} =
    ({| VarValue := VD'; NestedName := N |}, []).
Proof.
  intros Hfail. unfold visitVarDecl, visitValueDecl. simpl.
  destruct (validateDecl TC VD) as [failed T]. simpl in *. subst failed.
  by simpl.
Qed.

Lemma visitValueDecl_unresolved_witness :
  visitValueDecl Sample.TC_unresolved VarDeclKind Sample.twice =
    ((true, setInit None (overwriteType ErrorType Sample.twice)), []) /\
  visitVarDecl Sample.TC_unresolved
    {| VarValue := Sample.twice; NestedName := Some Sample.ab_c |} =
    ({| VarValue := setInit None (overwriteType ErrorType Sample.twice);
        NestedName := Some Sample.ab_c |}, []).
Proof.
  pose proof (visitValueDecl_unresolved Sample.TC_unresolved VarDeclKind
                Sample.twice (Some Sample.ab_c) eq_refl) as (H1 & _ & _ & H2).
  exact (conj H1 H2).
Defined.

(** C4.  For a [VarDecl] with a name specifier: the specifier is detached
    exactly when the value part was validated and the matcher found the
    specifier not to fit the type of the declaration; otherwise it is left
    attached, and when the matcher ran it is then shape-compatible with that
    type.  In every case the value part, and so the type, is the one
    [visitValueDecl] left: the matcher writes nothing to the declaration. *)
Theorem visitVarDecl_name_specifier TC (D : VarDecl) (Name : DeclVarName) :
  NestedName D = Some Name ->
  let r := (visitValueDecl TC VarDeclKind (VarValue D)).1 in
  let D' := (visitVarDecl TC D).1 in
  VarValue D' = r.2 /\
  Ty (VarValue D') = Ty r.2 /\
  (NestedName D' = Some Name \/ NestedName D' = None) /\
  (NestedName D' = None <-> r.1 = false /\ ~ ShapeCompatible (Ty r.2) Name) /\
  (r.1 = false -> NestedName D' = Some Name -> ShapeCompatible (Ty r.2) Name).
Proof.
  intros HN. unfold visitVarDecl.
  destruct (visitValueDecl TC VarDeclKind (VarValue D)) as [[failed VD'] ds].
  simpl. rewrite HN. destruct failed; simpl.
  { split_and!; [done | done | by left | | done].
    split; [done | by intros []]. }
  pose proof (validateVarName_ShapeCompatible Name (Ty VD')) as HC.
  destruct (validateVarName (Ty VD') Name) as [[] ds']; simpl in *.
  - split_and!; [done | done | by right | | done].
    split; [| done]. intros _. split; [done |].
    intros Hfits. by apply HC in Hfits.
  - split_and!; [done | done | by left | | intros _ _; by apply HC].
    split; [done |]. intros [_ Hunfit]. destruct Hunfit. by apply HC.
Qed.

Lemma visitVarDecl_name_specifier_witness :
  NestedName (visitVarDecl Sample.TC_unconverted Sample.var_v).1 = None /\
  Ty (VarValue (visitVarDecl Sample.TC_unconverted Sample.var_v).1) = Sample.Int.
Proof.
  pose proof (visitVarDecl_name_specifier Sample.TC_unconverted Sample.var_v
                Sample.a_b eq_refl) as (_ & HT & _ & HN & _).
  split; [| exact HT].
  apply HN. split; [reflexivity |].
  intros HC. apply validateVarName_ShapeCompatible in HC. discriminate HC.
Defined.

(** C7.  A value declaration whose type resolves and whose initializer does
    not convert: [while_converting_var_init] is reported, at the start of
    the declaration, exactly when the declaration is a [VarDecl]; for any
    other class, a [FuncDecl] included, the branch reports nothing.  The
    type stays the one [validateType] left, and the attributes are validated
    next. *)
Theorem visitValueDecl_unconverted TC K (VD : ValueDecl) (E : Expr) :
  let T := (validateDecl TC VD).2 in
  let DestTy := if is_DependentType T then None else Some T in
  let E' := (typeCheckExpression TC E DestTy).2 in
  let r := visitValueDecl TC K VD in
  (validateDecl TC VD).1 = false ->
  Init VD = Some E ->
  (typeCheckExpression TC E DestTy).1 = true ->
  r.2 = (if isa_VarDecl K then [(LocStart VD, while_converting_var_init)] else [])
        ++ (validateAttributes K (setInit (Some E') (overwriteType T VD))).2 /\
  (forall Loc, (Loc, while_converting_var_init) ∈ r.2 <->
               K = VarDeclKind /\ Loc = LocStart VD) /\
  Ty r.1.2 = T /\
  r.1.1 = false.
Proof.
  intros T DestTy E' r Hres HInit Hconv.
  assert (r = ((false,
                (validateAttributes K (setInit (Some E') (overwriteType T VD))).1),
               (if isa_VarDecl K
                then [(LocStart VD, while_converting_var_init)] else [])
               ++ (validateAttributes K
                     (setInit (Some E') (overwriteType T VD))).2)) as ->.
  { subst r E' DestTy T. unfold visitValueDecl.
    destruct (validateDecl TC VD) as [failed T]. simpl in *. subst failed.
    rewrite HInit.
    destruct (typeCheckExpression TC E _) as [failed E']. simpl in *.
    subst failed. simpl.
    destruct (isa_VarDecl K); simpl; unfold bind, ret;
      destruct (validateAttributes K _); simpl; by rewrite ?app_nil_r. }
  simpl. split_and!; [done | | | done].
  - intros Loc. split.
    + intros Hin. apply elem_of_app in Hin as [Hin | Hin];
        [| by apply validateAttributes_no_conversion_diagnostic in Hin].
      destruct K; simpl in Hin; try (by apply elem_of_nil in Hin).
      apply list_elem_of_singleton in Hin. by injection Hin as ->.
    + intros [-> ->]. simpl. apply elem_of_cons. by left.
  - by destruct (validateAttributes_frame K (setInit (Some E') (overwriteType T VD)))
      as (_ & -> & _).
Qed.

Lemma visitValueDecl_unconverted_witness :
  (visitValueDecl Sample.TC_unconverted VarDeclKind Sample.v).2 =
    [(5, while_converting_var_init)] /\
  (visitValueDecl Sample.TC_unconverted FuncDeclKind Sample.v).2 = [] /\
  Ty (visitValueDecl Sample.TC_unconverted VarDeclKind Sample.v).1.2 = Sample.Int.
Proof.
  pose proof (visitValueDecl_unconverted Sample.TC_unconverted VarDeclKind
                Sample.v Sample.literal eq_refl eq_refl eq_refl) as (HV & _ & HT & _).
  pose proof (visitValueDecl_unconverted Sample.TC_unconverted FuncDeclKind
                Sample.v Sample.literal eq_refl eq_refl eq_refl) as (HF & _).
  exact (conj HV (conj HF HT)).
Defined.

(** C10.  A value declaration whose type resolves and whose initializer
    converts: the type of the declaration becomes the type of the checked
    initializer, whether the declared type was the unresolved placeholder or
    a resolved type that was passed as the expected type. *)
Theorem visitValueDecl_converted TC K (VD : ValueDecl) (E : Expr) :
  let T := (validateDecl TC VD).2 in
  let DestTy := if is_DependentType T then None else Some T in
  let E' := (typeCheckExpression TC E DestTy).2 in
  let r := visitValueDecl TC K VD in
  (validateDecl TC VD).1 = false ->
  Init VD = Some E ->
  (typeCheckExpression TC E DestTy).1 = false ->
  Ty r.1.2 = ExprType E' /\
  Init r.1.2 = Some E' /\
  r.1.1 = false.
Proof.
  intros T DestTy E' r Hres HInit Hconv.
  assert (r.1 = (false,
                 (validateAttributes K
                    (overwriteType (ExprType E')
                       (setInit (Some E') (overwriteType T VD)))).1)) as ->.
  { subst r E' DestTy T. unfold visitValueDecl.
    destruct (validateDecl TC VD) as [failed T]. simpl in *. subst failed.
    rewrite HInit.
    destruct (typeCheckExpression TC E _) as [failed E']. simpl in *.
    subst failed. simpl. unfold bind, ret.
    by destruct (validateAttributes K _). }
  simpl.
  by destruct (validateAttributes_frame K
                 (overwriteType (ExprType E')
                    (setInit (Some E') (overwriteType T VD))))
    as (_ & -> & -> & _).
Qed.

Lemma visitValueDecl_converted_witness :
  (validateDecl Sample.TC_ok Sample.v).2 = Sample.Int /\
  Ty (visitValueDecl Sample.TC_ok VarDeclKind Sample.v).1.2 = Sample.IntPair.
Proof.
  split; [reflexivity |].
  exact (proj1 (visitValueDecl_converted Sample.TC_ok VarDeclKind Sample.v
                  Sample.literal eq_refl eq_refl eq_refl)).
Defined.

(** ** Element references and the dispatch *)

(** Once the type of an element reference is not the unresolved placeholder,
    [visitElementRefDecl] returns at its first test: the walker is not
    consulted. *)
Lemma visitElementRefDecl_resolved getTypeForPath (ERD : ElementRefDecl) :
  is_DependentType (Ty (RefValue ERD)) = false ->
  visitElementRefDecl getTypeForPath ERD = (ERD, []).
Proof. unfold visitElementRefDecl. by intros ->. Qed.

Lemma visitElementRefDecl_unresolved getTypeForPath (ERD : ElementRefDecl) :
  is_DependentType (Ty (RefValue ERD)) = true ->
  visitElementRefDecl getTypeForPath ERD =
  match getTypeForPath (Ty (VarValue (VD ERD))) (AccessPath ERD) with
  | Some T =>
    ({| RefValue := overwriteType T (RefValue ERD);
        VD := VD ERD; AccessPath := AccessPath ERD |}, [])
  | None =>
    ({| RefValue := overwriteType ErrorType (RefValue ERD);
        VD := VD ERD; AccessPath := AccessPath ERD |},
     [(LocStart (RefValue ERD),
       invalid_index_in_element_ref (DeclName (RefValue ERD))
         (Ty (VarValue (VD ERD))))])
  end.
Proof.
  unfold visitElementRefDecl. intros ->. simpl.
  by destruct (getTypeForPath _ _).
Qed.

(** C8.  Checking an element reference a second time leaves the node as the
    first check left it, its type (the type found or [ErrorType]) in
    particular, and reports nothing.  The type is walked for once: when the
    first check has left a type other than the unresolved placeholder, the
    second one returns at its first test, whatever the walker. *)
Theorem visitElementRefDecl_idempotent getTypeForPath (ERD : ElementRefDecl) :
  let first := visitElementRefDecl getTypeForPath ERD in
  let second := visitElementRefDecl getTypeForPath first.1 in
  second = (first.1, []) /\
  Ty (RefValue second.1) = Ty (RefValue first.1) /\
  second.2 = [] /\
  (is_DependentType (Ty (RefValue first.1)) = false ->
   forall walker, visitElementRefDecl walker first.1 = (first.1, [])).
Proof.
  assert (visitElementRefDecl getTypeForPath
            (visitElementRefDecl getTypeForPath ERD).1 =
          ((visitElementRefDecl getTypeForPath ERD).1, [])) as Hsecond.
  { destruct (is_DependentType (Ty (RefValue ERD))) eqn:Hguard.
    - rewrite (visitElementRefDecl_unresolved _ ERD Hguard).
      destruct (getTypeForPath _ _) as [T |] eqn:Hwalk; simpl.
      + destruct (is_DependentType T) eqn:HT.
        * rewrite visitElementRefDecl_unresolved by exact HT.
          simpl. by rewrite Hwalk.
        * by apply visitElementRefDecl_resolved.
      + by apply visitElementRefDecl_resolved.
    - rewrite (visitElementRefDecl_resolved _ ERD Hguard). simpl.
      by apply visitElementRefDecl_resolved. }
  simpl. rewrite Hsecond. split_and!; try done.
  intros Hresolved walker. by apply visitElementRefDecl_resolved.
Qed.

Lemma visitElementRefDecl_idempotent_witness :
  Ty (RefValue (visitElementRefDecl Sample.walk Sample.ref_y).1) = Sample.Int /\
  forall walker,
    visitElementRefDecl walker (visitElementRefDecl Sample.walk Sample.ref_y).1 =
    ((visitElementRefDecl Sample.walk Sample.ref_y).1, []).
Proof.
  split; [reflexivity |].
  apply (visitElementRefDecl_idempotent Sample.walk Sample.ref_y).
  reflexivity.
Defined.

(** C9.  An [ArgDecl] that reaches the checker ends it in
    [llvm_unreachable]: no diagnostic, no node.  No other class of
    declaration does, so when no [ArgDecl] is handed to the checker it always
    completes. *)
Theorem typeCheckDecl_ArgDecl TC getTypeForPath :
  (forall AD,
     typeCheckDecl TC getTypeForPath (ArgDecl AD) =
     Unreachable "ArgDecls should never exist in a statement") /\
  (forall D, (forall AD, D <> ArgDecl AD) ->
     exists D' Diags, typeCheckDecl TC getTypeForPath D = Checked D' Diags).
Proof.
  split; [reflexivity |].
  intros D Hno. destruct D; simpl; unfold completed; eauto.
  by destruct (Hno D).
Qed.

Lemma typeCheckDecl_ArgDecl_witness :
  exists D' Diags,
    typeCheckDecl Sample.TC_ok Sample.walk (ElementRef Sample.ref_y) =
    Checked D' Diags.
Proof.
  apply (proj2 (typeCheckDecl_ArgDecl Sample.TC_ok Sample.walk)).
  intros AD H. discriminate H.
Defined.

(** * Further properties of the checker *)

(** ** The matcher *)

Lemma validateVarName_DependentType Name :
  validateVarName DependentType Name = (false, []).
Proof. by destruct Name. Qed.

(** X1.  [validateVarName] reports nothing when it accepts, and when it
    rejects it reports exactly one diagnostic, which is one of its own two:
    [name_matches_nontuple] with a type that is no tuple, or
    [varname_element_count_mismatch] with a tuple type, its field count and
    an element count that differs from it. *)
Theorem validateVarName_single_diagnostic Name :
  forall Ty,
    ((validateVarName Ty Name).1 = false /\ (validateVarName Ty Name).2 = []) \/
    ((validateVarName Ty Name).1 = true /\
     exists Loc D, (validateVarName Ty Name).2 = [(Loc, D)] /\ matcherDiagnostic D).
Proof.
  induction Name as [Loc Name | Loc Elements IH] using DeclVarName_nested_ind;
    intros Ty.
  - by left.
  - rewrite validateVarName_nested.
    destruct (is_DependentType Ty); [by left |].
    generalize (throughSingleElementOneOf Ty). clear Ty. intros Ty.
    destruct (getAs_TupleType Ty) as [Fields |] eqn:HT.
    2: { right. split; [done |]. by exists Loc, (name_matches_nontuple Ty). }
    destruct (Nat.eqb (length Elements) (length Fields)) eqn:Hlen; simpl.
    2: { right. split; [done |]. eexists Loc, _. split; [done |]. simpl.
         apply Nat.eqb_neq in Hlen. split; [| done].
         exists Fields. split; [| done]. by destruct Ty; simplify_eq/=. }
    clear HT Hlen Ty Loc. revert Fields.
    induction IH as [| E Es HE _ IHEs]; intros [| F Fs]; try by left.
    rewrite validateElements_cons.
    destruct (HE (FieldTy F)) as [[-> ->] | [-> Hd]]; simpl.
    + destruct (IHEs Fs) as [[-> ->] | [-> Hd]]; [by left | by right].
    + by right.
Qed.

(** X2.  [validateVarName] decides the shape compatibility of the design
    document: it accepts, silently, exactly the name specifiers that are
    shape-compatible with the type, and rejects exactly the others. *)
Theorem validateVarName_decides_ShapeCompatible Ty Name :
  (ShapeCompatible Ty Name <-> validateVarName Ty Name = (false, [])) /\
  (~ ShapeCompatible Ty Name <-> (validateVarName Ty Name).1 = true).
Proof.
  pose proof (validateVarName_ShapeCompatible Name Ty) as HC.
  split; split.
  - intros H. apply validateVarName_accepts_silently. by apply HC.
  - intros H. apply HC. by rewrite H.
  - intros H. destruct (validateVarName Ty Name).1; [done |].
    destruct H. by apply HC.
  - intros H Hfits. apply HC in Hfits. congruence.
Qed.

(** X3.  Fields that are not resolved yet never make a name specifier
    unfit: a specifier with as many children as the tuple has fields is
    accepted when every field type is still [DependentType], however the
    children are nested. *)
Theorem validateVarName_unresolved_fields Loc (Elements : list DeclVarName)
    (Fields : list TupleTypeElt) :
  length Elements = length Fields ->
  Forall (fun F => FieldTy F = DependentType) Fields ->
  validateVarName (TupleType Fields) (NestedNames Loc Elements) = (false, []).
Proof.
  intros Hlen Hdep. rewrite validateVarName_nested. simpl.
  rewrite Hlen, Nat.eqb_refl. simpl.
  apply validateElements_all_accepted. intros i E F _ HF.
  rewrite Forall_lookup in Hdep. rewrite (Hdep i F HF).
  by rewrite validateVarName_DependentType.
Qed.

Lemma validateVarName_unresolved_fields_witness :
  validateVarName Sample2.UnresolvedPair Sample.ab_c = (false, []).
Proof.
  apply (validateVarName_unresolved_fields 11 [Sample.a_b; Sample.c]);
    [reflexivity | repeat constructor].
Defined.

(** X4.  Only a oneof with a single element is looked through.  Against a
    oneof with no element or with several, a name specifier with children is
    rejected with [name_matches_nontuple], naming the oneof type itself,
    whatever the argument types of its elements. *)
Theorem validateVarName_several_elements Loc (Elements : list DeclVarName)
    (Cases : list OneOfElement) :
  hasSingleElement Cases = false ->
  validateVarName (OneOfType Cases) (NestedNames Loc Elements) =
  (true, [(Loc, name_matches_nontuple (OneOfType Cases))]).
Proof.
  intros Hseveral. rewrite validateVarName_nested. simpl.
  unfold throughSingleElementOneOf. simpl. by rewrite Hseveral.
Qed.

Lemma validateVarName_several_elements_witness :
  validateVarName (OneOfType Sample2.Shape) Sample.a_b =
  (true, [(10, name_matches_nontuple (OneOfType Sample2.Shape))]).
Proof.
  apply (validateVarName_several_elements 10 [Sample.a; Sample.b] Sample2.Shape).
  reflexivity.
Defined.

(** ** The attribute validator *)

(** X5.  [validateAttributes] reports nothing exactly for the three
    well-formed combinations: neither an operator nor infix data; an
    operator without infix data that takes one argument; an operator that is
    a [VarDecl] or a [FuncDecl], has infix data and takes two arguments.  In
    these cases the declaration is returned as it was. *)
Theorem validateAttributes_silent K VD :
  let n := NumArguments (Ty VD) in
  ((validateAttributes K VD).2 = [] <->
   (isOperator VD = false /\ isInfix (Attrs VD) = false) \/
   (isOperator VD = true /\ isInfix (Attrs VD) = false /\ n = 1%Z) \/
   (isOperator VD = true /\ isInfix (Attrs VD) = true /\ n = 2%Z /\
    (K = VarDeclKind \/ K = FuncDeclKind))) /\
  ((validateAttributes K VD).2 = [] -> (validateAttributes K VD).1 = VD).
Proof.
  attribute_cases K VD; (split; [split |]); intros; try done;
    try (by left); try (by right; left);
    try (right; right; by eauto);
    repeat match goal with
      | H : _ \/ _ |- _ => destruct H
      | H : _ /\ _ |- _ => destruct H
      end; try done; try lia.
Qed.

(** X6.  Validation normalizes the attributes: validating once more changes
    nothing in the declaration, reports none of the infix diagnostics of
    rules 2 to 4, and reports only what the first validation reported. *)
Theorem validateAttributes_idempotent K VD :
  let first := validateAttributes K VD in
  let second := validateAttributes K first.1 in
  second.1 = first.1 /\
  second.2 = filter (fun d => negb (infixDiagnostic d.2)) first.2.
Proof.
  unfold validateAttributes.
  destruct VD as [name T init [lsquare [infix |]] [] loc]; destruct K; simpl;
    repeat match goal with
      | |- context [Z.eqb ?a ?b] => destruct (Z.eqb_spec a b); simpl
      | |- context [Z.ltb ?a ?b] => destruct (Z.ltb_spec a b); simpl
      end;
    split; try reflexivity; simpl in *; lia.
Qed.

(** X7.  [validateAttributes] reports at most two diagnostics, all of them
    its own, and at most one of them is an infix diagnostic of rules 2 to
    4. *)
Theorem validateAttributes_diagnostics_bound K VD :
  (length (validateAttributes K VD).2 <= 2)%nat /\
  (length (filter (fun d => infixDiagnostic d.2) (validateAttributes K VD).2)
   <= 1)%nat /\
  Forall (fun d => attributeDiagnostic d.2 = true) (validateAttributes K VD).2.
Proof.
  attribute_cases K VD; (split; [| split]); simpl; try lia;
    repeat constructor.
Qed.

Lemma NumArguments_sentinel T :
  (forall Fields Res, T <> FunctionType (TupleType Fields) Res) ->
  NumArguments T = (-1)%Z.
Proof.
  intros Hno. destruct T as [| | | | In Res |]; try reflexivity.
  destruct In as [| | | Fields | |]; try reflexivity.
  by destruct (Hno Fields Res).
Qed.

(** X8.  An operator whose type is not a function type over a tuple has no
    argument count ([NumArguments] is [-1]): rule 1 lets it pass, its infix
    data, if any, is cleared with [invalid_infix_left_input], and
    [binops_infix_left] is reported in every case. *)
Theorem validateAttributes_operator_without_arguments K VD :
  (forall Fields Res, Ty VD <> FunctionType (TupleType Fields) Res) ->
  isOperator VD = true ->
  validateAttributes K VD =
  (setAttrs (clearInfix (Attrs VD)) VD,
   (if isInfix (Attrs VD)
    then [(LSquareLoc (Attrs VD), invalid_infix_left_input)] else [])
   ++ [(LocStart VD, binops_infix_left)]).
Proof.
  intros Hno Hop. apply NumArguments_sentinel in Hno.
  destruct VD as [name T init [lsquare [infix |]] op loc]; simpl in *;
    subst op; unfold validateAttributes; simpl; rewrite Hno; reflexivity.
Qed.

Lemma validateAttributes_operator_without_arguments_witness :
  validateAttributes VarDeclKind Sample2.minus =
  (setAttrs {| LSquareLoc := 7; Infix := None |} Sample2.minus,
   [(7, invalid_infix_left_input); (6, binops_infix_left)]).
Proof.
  apply (validateAttributes_operator_without_arguments VarDeclKind Sample2.minus);
    [intros Fields Res H; discriminate H | reflexivity].
Defined.

(** Where [validateAttributes] reports: at the start of the declaration or
    at the bracket of its attributes. *)
Lemma validateAttributes_diagnostics_shape K VD :
  (length (validateAttributes K VD).2 <= 2)%nat /\
  Forall (fun d => (d.1 = LocStart VD \/ d.1 = LSquareLoc (Attrs VD)) /\
                   attributeDiagnostic d.2 = true)
         (validateAttributes K VD).2.
Proof.
  attribute_cases K VD; (split; [simpl; lia |]);
    repeat (apply Forall_cons; split; [split; [simpl; auto | reflexivity] |]);
    apply Forall_nil_2.
Qed.

(** ** Value declarations *)

(** The four ways through [visitValueDecl]. *)
Lemma visitValueDecl_cases TC K VD :
  let T := (validateDecl TC VD).2 in
  let VD1 := overwriteType T VD in
  visitValueDecl TC K VD =
  if (validateDecl TC VD).1 then ((true, setInit None VD1), []) else
  match Init VD with
  | None =>
    if is_DependentType T then ((true, VD1), [])
    else ((false, (validateAttributes K VD1).1), (validateAttributes K VD1).2)
  | Some E =>
    let r := typeCheckExpression TC E
               (if is_DependentType T then None else Some T) in
    let VD2 := setInit (Some r.2) VD1 in
    if r.1 then
      ((false, (validateAttributes K VD2).1),
       (if isa_VarDecl K then [(LocStart VD, while_converting_var_init)] else [])
       ++ (validateAttributes K VD2).2)
    else
      ((false, (validateAttributes K (overwriteType (ExprType r.2) VD2)).1),
       (validateAttributes K (overwriteType (ExprType r.2) VD2)).2)
  end.
Proof.
  unfold visitValueDecl.
  destruct (validateDecl TC VD) as [[] T]; simpl; [reflexivity |].
  destruct (Init VD) as [E |]; simpl.
  - destruct (typeCheckExpression TC E _) as [[] E']; simpl.
    + destruct (isa_VarDecl K); simpl; unfold bind, ret;
        destruct (validateAttributes K _); simpl; by rewrite ?app_nil_r.
    + unfold bind, ret. destruct (validateAttributes K _); simpl.
      by rewrite ?app_nil_r.
  - destruct (is_DependentType T); [reflexivity |].
    unfold bind, ret. destruct (validateAttributes K _); simpl.
    by rewrite ?app_nil_r.
Qed.

(** Case analysis on the ways through [visitValueDecl]. *)
Ltac value_cases TC K VD :=
  rewrite (visitValueDecl_cases TC K VD); simpl;
  destruct (validateDecl TC VD) as [[] ?T]; simpl;
  [| destruct (Init VD) as [?E |] eqn:?HInit; simpl;
     [ destruct (typeCheckExpression TC _ _) as [[] ?E']; simpl
     | destruct (is_DependentType _) eqn:?HDep; simpl ] ].

(** X9.  [visitValueDecl] returns failure exactly when the type does not
    resolve, or when there is no initializer and the resolved type is still
    [DependentType]; an initializer that does not convert is no failure.  A
    failure reports nothing, leaves the attributes alone and ends without an
    initializer; a success without initializer ends with a type that is not
    [DependentType]. *)
Theorem visitValueDecl_failure TC K VD :
  let r := visitValueDecl TC K VD in
  (r.1.1 = true <->
   (validateDecl TC VD).1 = true \/
   (Init VD = None /\ is_DependentType (validateDecl TC VD).2 = true)) /\
  (r.1.1 = true ->
   r.2 = [] /\ Attrs r.1.2 = Attrs VD /\ Init r.1.2 = None) /\
  (r.1.1 = false -> Init VD = None -> is_DependentType (Ty r.1.2) = false).
Proof.
  value_cases TC K VD.
  - split_and!; [split; [by left | done] | done | done].
  - split_and!; [| done | done]. split; [done |]. by intros [| []].
  - split_and!; [| done | done]. split; [done |]. by intros [| []].
  - split_and!; [split; [by right | done] | done | done].
  - split_and!; [| done |].
    + split; [done |]. intros [| []]; congruence.
    + intros _ _.
      destruct (validateAttributes_frame K (overwriteType T VD)) as (_ & -> & _).
      done.
Qed.


(** X11.  [visitValueDecl] reports at most three diagnostics, each at the
    start of the declaration or at the bracket of its attributes, and each
    either [while_converting_var_init] or a diagnostic of the attribute
    validator: it never reports for the matcher. *)
Theorem visitValueDecl_diagnostics TC K VD :
  (length (visitValueDecl TC K VD).2 <= 3)%nat /\
  Forall (fun d => (d.1 = LocStart VD \/ d.1 = LSquareLoc (Attrs VD)) /\
                   (d.2 = while_converting_var_init \/
                    attributeDiagnostic d.2 = true))
         (visitValueDecl TC K VD).2.
Proof.
  assert (forall V, LocStart V = LocStart VD -> Attrs V = Attrs VD ->
            (length (validateAttributes K V).2 <= 2)%nat /\
            Forall (fun d => (d.1 = LocStart VD \/ d.1 = LSquareLoc (Attrs VD)) /\
                             (d.2 = while_converting_var_init \/
                              attributeDiagnostic d.2 = true))
                   (validateAttributes K V).2) as Hattrs.
  { intros V HL HA.
    destruct (validateAttributes_diagnostics_shape K V) as [Hlen Hshape].
    split; [done |]. rewrite HL, HA in Hshape.
    eapply Forall_impl; [exact Hshape |]. intros d [? ?]. auto. }
  value_cases TC K VD; try (split; [simpl; lia | constructor]).
  - destruct (Hattrs (setInit (Some E') (overwriteType T VD)) eq_refl eq_refl)
      as [Hlen Hshape].
    destruct (isa_VarDecl K); simpl; [| split; [lia | done]].
    split; [lia |]. constructor; [| done]. simpl. auto.
  - destruct (Hattrs (overwriteType (ExprType E')
                        (setInit (Some E') (overwriteType T VD)))
                eq_refl eq_refl) as [Hlen Hshape].
    split; [lia | done].
  - destruct (Hattrs (overwriteType T VD) eq_refl eq_refl) as [Hlen Hshape].
    split; [lia | done].
Qed.

Lemma visitValueDecl_failure_witness :
  (visitValueDecl Sample.TC_ok VarDeclKind Sample2.u).1.1 = true /\
  (visitValueDecl Sample.TC_ok VarDeclKind Sample2.u).2 = [] /\
  (visitValueDecl Sample.TC_unconverted VarDeclKind Sample.v).1.1 = false.
Proof.
  pose proof (visitValueDecl_failure Sample.TC_ok VarDeclKind Sample2.u)
    as (Hiff & Hquiet & _).
  assert ((visitValueDecl Sample.TC_ok VarDeclKind Sample2.u).1.1 = true) as Hu
    by (apply Hiff; right; split; reflexivity).
  split; [exact Hu | split; [exact (proj1 (Hquiet Hu)) |]].
  pose proof (visitValueDecl_failure Sample.TC_unconverted VarDeclKind Sample.v)
    as (Hv & _).
  destruct (visitValueDecl Sample.TC_unconverted VarDeclKind Sample.v).1.1 eqn:Hr;
    [| reflexivity].
  destruct (proj1 Hv eq_refl) as [H | [H _]]; discriminate H.
Defined.

(** ** Variables *)

(** X12.  What [visitVarDecl] adds to [visitValueDecl]: either the name
    specifier is as it was and nothing more is reported, or the value part
    was validated, a specifier that was there is detached, and exactly one
    more diagnostic follows those of the value part.  The value part is the
    one [visitValueDecl] left. *)
Theorem visitVarDecl_diagnostics TC (D : VarDecl) :
  let v := visitValueDecl TC VarDeclKind (VarValue D) in
  let r := visitVarDecl TC D in
  VarValue r.1 = v.1.2 /\
  ((NestedName r.1 = NestedName D /\ r.2 = v.2) \/
   (NestedName D <> None /\ NestedName r.1 = None /\ v.1.1 = false /\
    exists d, r.2 = v.2 ++ [d])).
Proof.
  unfold visitVarDecl.
  destruct (visitValueDecl TC VarDeclKind (VarValue D)) as [[failed VD'] ds].
  simpl. destruct failed; simpl; [rewrite app_nil_r; by split; [| left] |].
  destruct (NestedName D) as [Name |] eqn:HN; simpl;
    [| rewrite app_nil_r; by split; [| left]].
  pose proof (validateVarName_diagnostics Name (Ty VD')) as Hd.
  destruct (validateVarName (Ty VD') Name) as [[] ds']; simpl in *.
  - destruct Hd as [d ->]. rewrite app_nil_r. split; [done |]. right.
    split_and!; try done. by exists d.
  - subst ds'. rewrite app_nil_r. by split; [| left].
Qed.

(** X13.  A name specifier with children on a variable whose validated type
    is a tuple with another number of fields: [visitVarDecl] detaches the
    specifier, keeps the value part with its type, and reports
    [varname_element_count_mismatch], with the type and both counts, after
    the diagnostics of the value part. *)
Theorem visitVarDecl_count_mismatch TC (D : VarDecl) Loc
    (Elements : list DeclVarName) (Fields : list TupleTypeElt) :
  let v := visitValueDecl TC VarDeclKind (VarValue D) in
  NestedName D = Some (NestedNames Loc Elements) ->
  v.1.1 = false ->
  Ty v.1.2 = TupleType Fields ->
  length Elements <> length Fields ->
  visitVarDecl TC D =
  ({| VarValue := v.1.2; NestedName := None |},
   v.2 ++ [(Loc, varname_element_count_mismatch (TupleType Fields)
                   (length Fields) (length Elements))]).
Proof.
  intros v HN Hok HT Hlen. subst v. unfold visitVarDecl.
  destruct (visitValueDecl TC VarDeclKind (VarValue D)) as [[failed VD'] ds].
  simpl in *. subst failed. rewrite HN, HT, validateVarName_nested. simpl.
  by rewrite (proj2 (Nat.eqb_neq _ _) Hlen).
Qed.

Lemma visitVarDecl_count_mismatch_witness :
  visitVarDecl Sample.TC_unconverted Sample2.w =
  ({| VarValue := VarValue Sample2.w; NestedName := None |},
   [(15, while_converting_var_init);
    (10, varname_element_count_mismatch Sample.IntSingle 1 2)]).
Proof.
  apply (visitVarDecl_count_mismatch Sample.TC_unconverted Sample2.w 10
           [Sample.a; Sample.b] [Sample.x]);
    [reflexivity | reflexivity | reflexivity | simpl; lia].
Defined.

(** ** Element references and the dispatch *)

(** X14.  [visitElementRefDecl] writes the type of the reference and nothing
    else: owner, access path and the other fields stay.  It reports, once,
    [invalid_index_in_element_ref] with the name of the reference and the
    type of the owner, exactly when the reference was unresolved and the
    path is invalid in the type of the owner, and the type is then
    [ErrorType]; with a valid path the type is the one found, silently. *)
Theorem visitElementRefDecl_outcome getTypeForPath (ERD : ElementRefDecl) :
  let r := visitElementRefDecl getTypeForPath ERD in
  let found := getTypeForPath (Ty (VarValue (VD ERD))) (AccessPath ERD) in
  VD r.1 = VD ERD /\
  AccessPath r.1 = AccessPath ERD /\
  RefValue r.1 = overwriteType (Ty (RefValue r.1)) (RefValue ERD) /\
  (r.2 <> [] <->
   is_DependentType (Ty (RefValue ERD)) = true /\ found = None) /\
  (r.2 <> [] ->
   Ty (RefValue r.1) = ErrorType /\
   r.2 = [(LocStart (RefValue ERD),
           invalid_index_in_element_ref (DeclName (RefValue ERD))
             (Ty (VarValue (VD ERD))))]) /\
  (is_DependentType (Ty (RefValue ERD)) = true ->
   forall T, found = Some T -> Ty (RefValue r.1) = T /\ r.2 = []).
Proof.
  destruct (is_DependentType (Ty (RefValue ERD))) eqn:Hguard.
  - rewrite (visitElementRefDecl_unresolved _ ERD Hguard).
    destruct (getTypeForPath _ _) as [T |]; simpl; split_and!; try done.
    + split; [done | by intros []].
    + intros _ T' [= ->]. done.
  - rewrite (visitElementRefDecl_resolved _ ERD Hguard). simpl.
    split_and!; try done.
    + by destruct ERD as [[] ? ?].
    + split; [done | by intros []].
Qed.

Lemma visitElementRefDecl_outcome_witness :
  Ty (RefValue (visitElementRefDecl Sample.walk Sample2.ref_z).1) = ErrorType /\
  (visitElementRefDecl Sample.walk Sample2.ref_z).2 =
    [(16, invalid_index_in_element_ref "c"%string Sample.IntPair)] /\
  Ty (RefValue (visitElementRefDecl Sample.walk Sample.ref_y).1) = Sample.Int.
Proof.
  pose proof (visitElementRefDecl_outcome Sample.walk Sample2.ref_z)
    as (_ & _ & _ & Hiff & Herr & _).
  pose proof (visitElementRefDecl_outcome Sample.walk Sample.ref_y)
    as (_ & _ & _ & _ & _ & Hfound).
  assert ((visitElementRefDecl Sample.walk Sample2.ref_z).2 <> []) as Hrep
    by (apply Hiff; split; reflexivity).
  destruct (Herr Hrep) as [HT Hd].
  split; [exact HT | split; [exact Hd |]].
  exact (proj1 (Hfound eq_refl Sample.Int eq_refl)).
Defined.


(** ** The matcher and the names bound *)

(** X16.  The matcher goes by position only: the identifiers that a name
    specifier binds, and where they are written, play no part.  Two
    specifiers of the same shape get the same answer and the same diagnostic
    from [validateVarName], for every type. *)
Theorem validateVarName_SameShape Name :
  forall Name' Ty,
    SameShape Name Name' -> validateVarName Ty Name = validateVarName Ty Name'.
Proof.
  induction Name as [Loc Name | Loc Elements IH] using DeclVarName_nested_ind;
    intros Name' Ty Hsame; inversion Hsame as [| ? ? Elements' HF]; subst;
    [reflexivity |].
  rewrite !validateVarName_nested.
  destruct (is_DependentType Ty); [reflexivity |].
  destruct (getAs_TupleType _) as [Fields |]; [| reflexivity].
  rewrite <- (Forall2_length _ _ _ HF).
  destruct (negb _); [reflexivity |].
  clear Hsame Ty Loc. revert Elements' HF Fields.
  induction IH as [| E Es HE _ IHEs]; intros Elements' HF Fields;
    inversion HF as [| ? E' ? Es' HEE' HF']; subst; [reflexivity |].
  destruct Fields as [| F Fs]; [reflexivity |].
  rewrite !validateElements_cons, <- (HE E' (FieldTy F) HEE').
  by rewrite <- (IHEs Es' HF' Fs).
Qed.

Lemma validateVarName_SameShape_witness :
  validateVarName Sample.Point Sample.a_b =
  validateVarName Sample.Point (NestedNames 10 [Sample.c; Sample.c]).
Proof.
  apply (validateVarName_SameShape Sample.a_b).
  repeat constructor.
Defined.
